(** * Response extraction and composition of the gridpilot chat server

    Shallow embedding of the [/api/chat] handler of the Express server
    (the second half of [src/unnamed/part_001]): message validation, the
    child-process callbacks, the parsing of [[Agent]: text] lines and the
    composition of the reply.

    JavaScript strings are sequences of UTF-16 code units; they are modelled
    as [list N], one [N] per code unit, so that [length], [trim], [.] in a
    regular expression and [\w] are those of JavaScript. *)

From Stdlib Require Import List Bool NArith ZArith QArith String Ascii.
Import ListNotations.
Open Scope N_scope.

(** ** JavaScript strings *)

Definition jstr := list N.

(** A Rocq string literal (ASCII) as a JavaScript string. *)
Definition u (s : string) : jstr :=
  map (fun a => N.of_nat (nat_of_ascii a)) (list_ascii_of_string s).

Fixpoint jstr_eqb (a b : jstr) : bool :=
  match a, b with
  | [], [] => true
  | x :: a', y :: b' => N.eqb x y && jstr_eqb a' b'
  | _, _ => false
  end.

(** [s.startsWith(p)] *)
Fixpoint startsWith (s p : jstr) : bool :=
  match p, s with
  | [], _ => true
  | c :: p', d :: s' => N.eqb c d && startsWith s' p'
  | _ :: _, [] => false
  end.

(** [s.includes(sub)] *)
Fixpoint includes (s sub : jstr) : bool :=
  startsWith s sub ||
  match s with
  | [] => false
  | _ :: s' => includes s' sub
  end.

(** The code units that [String.prototype.trim] removes: WhiteSpace and
    LineTerminator of ECMAScript (all in the BMP). *)
Definition is_js_space (c : N) : bool :=
  (9 <=? c) && (c <=? 13) || N.eqb c 32 || N.eqb c 160 || N.eqb c 5760
  || (8192 <=? c) && (c <=? 8202) || N.eqb c 8232 || N.eqb c 8233
  || N.eqb c 8239 || N.eqb c 8287 || N.eqb c 12288 || N.eqb c 65279.

Fixpoint drop_spaces (s : jstr) : jstr :=
  match s with
  | [] => []
  | c :: s' => if is_js_space c then drop_spaces s' else s
  end.

(** [s.trim()] *)
Definition trim (s : jstr) : jstr := rev (drop_spaces (rev (drop_spaces s))).

(** [s.split('\n')]: [""] splits into [[""]], a trailing newline gives a
    trailing empty piece. *)
Fixpoint split_nl (s : jstr) : list jstr :=
  match s with
  | [] => [[]]
  | c :: s' =>
      if N.eqb c 10 then [] :: split_nl s'
      else match split_nl s' with
           | x :: xs => (c :: x) :: xs
           | [] => [[c]]
           end
  end.

(** [xs.join(sep)] *)
Fixpoint join (sep : jstr) (xs : list jstr) : jstr :=
  match xs with
  | [] => []
  | [x] => x
  | x :: xs' => x ++ sep ++ join sep xs'
  end.

(** ** The agent-line regular expression [/^\[([\w_]+)\]: (.+)$/] *)

(** [\w] without the [u] flag: [A-Za-z0-9_]. *)
Definition is_word (c : N) : bool :=
  (48 <=? c) && (c <=? 57) || (65 <=? c) && (c <=? 90)
  || (97 <=? c) && (c <=? 122) || N.eqb c 95.

(** [.] matches every code unit but the line terminators. *)
Definition is_dot (c : N) : bool :=
  negb (N.eqb c 10 || N.eqb c 13 || N.eqb c 8232 || N.eqb c 8233).

Fixpoint take_word (s : jstr) : jstr * jstr :=
  match s with
  | c :: s' => if is_word c then let (w, r) := take_word s' in (c :: w, r)
               else ([], s)
  | [] => ([], [])
  end.

(** [line.match(re)]: [Some (match[1], match[2])] or [None] for [null].
    Without the [m] flag, [^] and [$] anchor at the ends of the line; the
    greedy [[\w_]+] can only stop at the end of the word run, since it must
    be followed by [']'], and [(.+)$] needs the rest of the line to be
    non-empty and free of line terminators. *)
Definition agent_match (line : jstr) : option (jstr * jstr) :=
  match line with
  | 91 :: rest =>
      let (name, after) := take_word rest in
      match name, after with
      | _ :: _, 93 :: 58 :: 32 :: text =>
          match text with
          | [] => None
          | _ :: _ => if forallb is_dot text then Some (name, text) else None
          end
      | _, _ => None
      end
  | _ => None
  end.

(** ** The composition of the reply ([pythonProcess.on('close')], code 0) *)

Record agent_response := { agent : jstr; message : jstr }.

Definition NONE_TEXT : jstr := u "None".
Definition CAISO_MARKET : jstr := u "CAISO_Market".
Definition WEATHER : jstr := u "Weather".
Definition NO_RESPONSE : jstr := u "No response generated".

(** The [for (const line of lines)] loop filling [agentResponses]. *)
Fixpoint collect_responses (lines : list jstr) : list agent_response :=
  match lines with
  | [] => []
  | line :: rest =>
      match agent_match line with
      | Some (a, m) =>
          if negb (jstr_eqb m NONE_TEXT)
          then {| agent := a; message := m |} :: collect_responses rest
          else collect_responses rest
      | None => collect_responses rest
      end
  end.

Definition agentResponses (dataString : jstr) : list agent_response :=
  collect_responses (split_nl dataString).

(** The filter of the combined (market / weather) reply. *)
Definition long_message (r : agent_response) : bool :=
  negb (jstr_eqb (message r) NONE_TEXT) && (10 <? N.of_nat (List.length (message r))).

(** The filter of the raw-output fallback. *)
Definition fallback_keep (line : jstr) : bool :=
  negb (startsWith line (u "User:")) &&
  negb (includes line (u "UserWarning")) &&
  negb (includes line (u "INFO")) &&
  negb (includes line (u "DEBUG")) &&
  negb (includes line (u "Warning:")) &&
  (0 <? N.of_nat (List.length (trim line))).

Definition NL : jstr := [10].
Definition BLANK_LINE : jstr := [10; 10].

(** [dataString.split('\n').filter(...).join('\n')] *)
Definition raw_fallback (dataString : jstr) : jstr :=
  join NL (filter fallback_keep (split_nl dataString)).

(** The value of [formattedResponse] before the final [||]. *)
Definition formattedResponse (dataString : jstr) : jstr :=
  let responses := agentResponses dataString in
  match responses with
  | [] => raw_fallback dataString
  | _ :: _ =>
      let lastResponse := last responses {| agent := []; message := [] |} in
      let marketData := filter (fun r => jstr_eqb (agent r) CAISO_MARKET) responses in
      let weatherData := filter (fun r => jstr_eqb (agent r) WEATHER) responses in
      if (0 <? List.length marketData)%nat || (0 <? List.length weatherData)%nat
      then join BLANK_LINE (map message (filter long_message responses))
      else message lastResponse
  end.

(** [formattedResponse || 'No response generated']: only [""] is falsy. *)
Definition or_no_response (s : jstr) : jstr :=
  match s with
  | [] => NO_RESPONSE
  | _ :: _ => s
  end.

Definition compose (dataString : jstr) : jstr :=
  or_no_response (formattedResponse dataString).

(** ** The [/api/chat] handler *)

Inductive reply_body :=
| RError (error : jstr)
| RResponse (response : jstr).

Record http_reply := { status : Z; body : reply_body }.

(** What the handler writes with [console.error]. *)
Inductive log_entry :=
| LogExitCode (code : option Z)      (* `Python process exited with code ${code}` *)
| LogPythonError (err : jstr)        (* 'Python Error:', errorString *)
| LogBackendError.                   (* 'Error communicating with backend:', error *)

Definition MSG_REQUIRED : jstr := u "Message is required".
Definition MSG_PROCESS_FAILED : jstr :=
  u "Failed to process request. Please check server logs.".
Definition MSG_GET_FAILED : jstr := u "Failed to get response".

(** The [pythonProcess.on('close', (code) => ...)] callback, given the
    accumulated [dataString] and [errorString]. [code] is [null] ([None])
    when the child was killed by a signal. *)
Definition on_close (code : option Z) (dataString errorString : jstr)
  : list log_entry * http_reply :=
  match code with
  | Some 0%Z =>
      ([], {| status := 200; body := RResponse (compose dataString) |})
  | _ =>
      ([LogExitCode code; LogPythonError errorString],
       {| status := 500; body := RError MSG_PROCESS_FAILED |})
  end.

(** Values that [req.body.message] can hold after [express.json()];
    [JUndefined] is an absent field. *)
#[warnings="-register-all"]
Inductive jvalue :=
| JUndefined
| JNull
| JBool (b : bool)
| JNum (q : Q)
| JStr (s : jstr)
| JArr (items : list jvalue)
| JObj (fields : list (jstr * jvalue)).

(** JavaScript truthiness ([NaN] does not occur in JSON). *)
Definition truthy (v : jvalue) : bool :=
  match v with
  | JUndefined | JNull => false
  | JBool b => b
  | JNum q => negb (Qeq_bool q 0)
  | JStr s => match s with [] => false | _ :: _ => true end
  | JArr _ | JObj _ => true
  end.

(** What Node's [spawn] does with the handler's call: it throws at once
    (invalid arguments), the child cannot be started ([ENOENT], [EACCES]:
    the [ChildProcess] emits ['error'] on a later tick), or the child runs
    and ['close'] is emitted after its output arrived in chunks. *)
Inductive spawn_outcome :=
| SpawnThrows
| SpawnError (errno : Z)
| Closed (code : option Z) (stdout_chunks stderr_chunks : list jstr).

(** The events of the [ChildProcess] the handler listens to. *)
Inductive child_event := EvStdoutData | EvStderrData | EvClose | EvError.

Definition child_event_eqb (a b : child_event) : bool :=
  match a, b with
  | EvStdoutData, EvStdoutData | EvStderrData, EvStderrData
  | EvClose, EvClose | EvError, EvError => true
  | _, _ => false
  end.

(** [pythonProcess.stdout.on('data')], [pythonProcess.stderr.on('data')]
    and [pythonProcess.on('close')]. *)
Definition registered_listeners : list child_event :=
  [EvStdoutData; EvStderrData; EvClose].

Inductive outcome :=
| Responded (logs : list log_entry) (reply : http_reply)
  (** the Node process dies of an uncaught exception; no reply is sent *)
| Crashed.

Record trace := { spawned : option jvalue; result : outcome }.

(** The [async (req, res) => { try { ... } catch { ... } }] handler, for the
    value [message] of [req.body.message]. [spawn] stands for Node's
    [child_process.spawn] applied to the handler's arguments. *)
Definition handle_chat (message : jvalue) (spawn : jvalue -> spawn_outcome)
  : trace :=
  if negb (truthy message) then
    {| spawned := None;
       result := Responded [] {| status := 400; body := RError MSG_REQUIRED |} |}
  else
    {| spawned := Some message;
       result :=
         match spawn message with
         | SpawnThrows =>
             (* caught by the [try] around the synchronous part *)
             Responded [LogBackendError]
               {| status := 500; body := RError MSG_GET_FAILED |}
         | SpawnError _ =>
             (* [emit('error')] on an EventEmitter throws when no ['error']
                listener is registered; it runs on a later tick, outside the
                [try] of the handler *)
             if existsb (child_event_eqb EvError) registered_listeners
             then Responded [] {| status := 500; body := RError MSG_PROCESS_FAILED |}
             else Crashed
         | Closed code outs errs =>
             (* [dataString += data.toString()] per chunk *)
             let (logs, r) := on_close code (List.concat outs) (List.concat errs) in
             Responded logs r
         end |}.

(** ** Vocabulary of the claims *)

(** One of the two agents whose presence switches on the combined reply. *)
Definition data_bearing (a : jstr) : bool :=
  jstr_eqb a CAISO_MARKET || jstr_eqb a WEATHER.

(** The combined reply: the long messages, in order, separated by a blank
    line. *)
Definition override_join (rs : list agent_response) : jstr :=
  join BLANK_LINE (map message (filter long_message rs)).

Definition tagged_line (l : jstr) : bool :=
  match agent_match l with Some _ => true | None => false end.

Definition generic_failure : http_reply :=
  {| status := 500; body := RError MSG_PROCESS_FAILED |}.

Definition scenario_1 : jstr :=
  u "[Weather]: Cloud cover 85%" ++ NL ++ u "[CAISO_Market]: Load down 300MW"
  ++ NL ++ u "[Coordinator]: Deviation confirmed.".

Definition scenario_2 : jstr := u "[Coordinator]: Deviation confirmed.".

Definition scenario_3 : jstr :=
  u "INFO: starting up" ++ NL ++ u "User: hello" ++ NL
  ++ u "Plain diagnostic line" ++ NL.

(** ** Shapes of the handler's replies *)

(** The reply sent to the client, if any. *)
Definition reply_of (o : outcome) : option http_reply :=
  match o with
  | Responded _ r => Some r
  | Crashed => None
  end.

(** ** The chat widget ([src/public/script.js]) *)

Inductive sender := User | Bot.

(** The children of [#chat-history]: a message [div] (its [textContent],
    [None] when [addMessage] receives [undefined]) or the typing indicator,
    whose object identity is modelled by a number. *)
Inductive node :=
| NMessage (text : option jstr) (who : sender)
| NIndicator (id : nat).

Definition sender_eqb (a b : sender) : bool :=
  match a, b with User, User | Bot, Bot => true | _, _ => false end.

Definition option_jstr_eqb (a b : option jstr) : bool :=
  match a, b with
  | Some x, Some y => jstr_eqb x y
  | None, None => true
  | _, _ => false
  end.

Definition node_eqb (a b : node) : bool :=
  match a, b with
  | NMessage t w, NMessage t' w' => option_jstr_eqb t t' && sender_eqb w w'
  | NIndicator i, NIndicator j => Nat.eqb i j
  | _, _ => false
  end.

Record ui := {
  history : list node;
  input_value : jstr;
  input_disabled : bool;
  button_disabled : bool;
  next_id : nat
}.

(** [parentNode.removeChild(indicator)]. *)
Fixpoint remove_node (n : node) (l : list node) : list node :=
  match l with
  | [] => []
  | x :: l' => if node_eqb x n then l' else x :: remove_node n l'
  end.

Definition SORRY : jstr := u "Sorry, something went wrong. Please try again.".

(** [data.error ? 'Error: ' + data.error : data.response] for the JSON
    object [{ error }] or [{ response }] the server sent. *)
Definition display_data (b : reply_body) : option jstr :=
  match b with
  | RError e => if truthy (JStr e) then Some (u "Error: " ++ e) else None
  | RResponse r => Some r
  end.

(** The text of the bot message: a crashed server closes the connection,
    [fetch] rejects and the [catch] branch shows the apology. *)
Definition client_reply (o : outcome) : option jstr :=
  match o with
  | Responded _ r => display_data (body r)
  | Crashed => Some SORRY
  end.

(** [sendMessage()], run to completion; [server] answers the request whose
    JSON body is [{ message }]. While it waits, the input and the button are
    disabled, so no second [sendMessage] interleaves. *)
Definition send_message (s : ui) (server : jvalue -> outcome) : ui :=
  match trim (input_value s) with
  | [] => s
  | m =>
      let h1 := history s ++ [NMessage (Some m) User] in
      let indicator := NIndicator (next_id s) in
      let h2 := remove_node indicator (h1 ++ [indicator]) in
      {| history := h2 ++ [NMessage (client_reply (server (JStr m))) Bot];
         input_value := [];
         input_disabled := false;
         button_disabled := false;
         next_id := S (next_id s) |}
  end.

(** The separator ["]: "] of a tagged line. *)
Definition AGENT_SEP : jstr := [93; 58; 32].

(** The chat history holds no typing indicator (as on page load). *)
Definition no_indicator (h : list node) : Prop := forall n, ~ In (NIndicator n) h.

(** A fresh page whose input holds [v]. *)
Definition empty_ui (v : jstr) : ui :=
  {| history := []; input_value := v; input_disabled := false;
     button_disabled := false; next_id := 0 |}.

(** ** Lemmas on the string primitives *)

Lemma jstr_eqb_refl (a : jstr) : jstr_eqb a a = true.
Proof. induction a as [|c a IH]; simpl; [reflexivity|]. now rewrite N.eqb_refl. Qed.

Lemma agent_match_text_nonempty (l a m : jstr) :
  agent_match l = Some (a, m) -> m <> [].
Proof.
  unfold agent_match. intros H.
  repeat match goal with
         | H : context [match ?x with _ => _ end] |- _ => destruct x
         end; try discriminate.
  injection H as <- <-. discriminate.
Qed.

Lemma collect_responses_message_nonempty (lines : list jstr) (r : agent_response) :
  In r (collect_responses lines) -> message r <> [].
Proof.
  induction lines as [|l lines IH]; simpl; [tauto|].
  destruct (agent_match l) as [[a m]|] eqn:E; [|exact IH].
  destruct (negb (jstr_eqb m NONE_TEXT)); [|exact IH].
  intros [<- | Hin]; [|exact (IH Hin)].
  exact (agent_match_text_nonempty _ _ _ E).
Qed.

(** Lines whose match is [null] or whose text is ["None"] contribute no
    agent response. *)
Lemma collect_responses_nil (lines : list jstr) :
  (forall l a t, In l lines -> agent_match l = Some (a, t) -> t = NONE_TEXT) ->
  collect_responses lines = [].
Proof.
  induction lines as [|l lines IH]; intros H; simpl; [reflexivity|].
  destruct (agent_match l) as [[a m]|] eqn:E.
  - rewrite (H l a m (or_introl eq_refl) E), jstr_eqb_refl. simpl.
    apply IH. intros l' a' t' Hin. exact (H l' a' t' (or_intror Hin)).
  - apply IH. intros l' a' t' Hin. exact (H l' a' t' (or_intror Hin)).
Qed.

Lemma existsb_filter_length_true {A} (f g : A -> bool) (l : list A) :
  existsb (fun x => f x || g x) l = true ->
  ((0 <? List.length (filter f l)) || (0 <? List.length (filter g l)))%nat = true.
Proof.
  induction l as [|x l IH]; simpl; [discriminate|].
  destruct (f x), (g x); simpl; try reflexivity.
  - destruct (List.length (filter f l)); reflexivity.
  - exact IH.
Qed.

Lemma existsb_filter_length_false {A} (f g : A -> bool) (l : list A) :
  existsb (fun x => f x || g x) l = false ->
  ((0 <? List.length (filter f l)) || (0 <? List.length (filter g l)))%nat = false.
Proof.
  induction l as [|x l IH]; simpl; [reflexivity|].
  destruct (f x), (g x); simpl; try discriminate. exact IH.
Qed.

Lemma or_no_response_nonempty (s : jstr) : s <> [] -> or_no_response s = s.
Proof. destruct s; [congruence | reflexivity]. Qed.

(** ** The three branches of the composition *)

Lemma compose_override (raw : jstr) :
  existsb (fun r => data_bearing (agent r)) (agentResponses raw) = true ->
  compose raw = or_no_response (override_join (agentResponses raw)).
Proof.
  intros H. unfold compose, formattedResponse, override_join. cbv zeta.
  unfold data_bearing in H.
  destruct (agentResponses raw) as [|r0 rs]; [discriminate H|].
  rewrite (existsb_filter_length_true
             (fun r => jstr_eqb (agent r) CAISO_MARKET)
             (fun r => jstr_eqb (agent r) WEATHER) _ H).
  reflexivity.
Qed.

Lemma compose_last (raw : jstr) (rs : list agent_response) (r : agent_response) :
  agentResponses raw = rs ++ [r] ->
  existsb (fun r => data_bearing (agent r)) (agentResponses raw) = false ->
  compose raw = message r.
Proof.
  intros E H. unfold compose, formattedResponse. cbv zeta.
  unfold data_bearing in H.
  rewrite (existsb_filter_length_false
             (fun r => jstr_eqb (agent r) CAISO_MARKET)
             (fun r => jstr_eqb (agent r) WEATHER) _ H).
  assert (Hr : message r <> []).
  { apply (collect_responses_message_nonempty (split_nl raw)).
    fold (agentResponses raw). rewrite E. apply in_or_app. right. now left. }
  rewrite E. destruct (rs ++ [r]) as [|x xs] eqn:E'.
  - destruct rs; discriminate E'.
  - rewrite <- E', last_last. now apply or_no_response_nonempty.
Qed.

Lemma compose_fallback (raw : jstr) :
  agentResponses raw = [] -> compose raw = or_no_response (raw_fallback raw).
Proof. intros E. unfold compose, formattedResponse. cbv zeta. now rewrite E. Qed.

Lemma jstr_eqb_eq (a b : jstr) : jstr_eqb a b = true -> a = b.
Proof.
  revert b. induction a as [|c a IH]; intros [|d b]; simpl; try discriminate.
  - reflexivity.
  - intros H. apply andb_prop in H as [H1 H2].
    apply N.eqb_eq in H1. now rewrite H1, (IH b H2).
Qed.

Lemma collect_responses_In (lines : list jstr) (l a t : jstr) :
  In l lines -> agent_match l = Some (a, t) -> t <> NONE_TEXT ->
  In {| agent := a; message := t |} (collect_responses lines).
Proof.
  intros Hin Hm Ht. induction lines as [|l' lines IH]; simpl; [destruct Hin|].
  destruct Hin as [<- | Hin].
  - rewrite Hm. destruct (jstr_eqb t NONE_TEXT) eqn:E.
    + exfalso. exact (Ht (jstr_eqb_eq _ _ E)).
    + now left.
  - specialize (IH Hin).
    destruct (agent_match l') as [[a' m']|]; [|exact IH].
    destruct (negb (jstr_eqb m' NONE_TEXT)); [now right | exact IH].
Qed.

Lemma existsb_In_true {A} (f : A -> bool) (l : list A) (x : A) :
  In x l -> f x = true -> existsb f l = true.
Proof. intros Hin Hx. apply existsb_exists. now exists x. Qed.

(** ** [split('\n')] and [join('\n')] *)

Lemma split_nl_no_newline (s l : jstr) : In l (split_nl s) -> ~ In 10 l.
Proof.
  revert l. induction s as [|c s IH]; intros l; simpl.
  - intros [<- | []]. simpl. tauto.
  - destruct (N.eqb c 10) eqn:Ec.
    + intros [<- | Hin]; [simpl; tauto | exact (IH l Hin)].
    + destruct (split_nl s) as [|x xs] eqn:E.
      * intros [<- | []]. simpl. intros [H | []]. subst. discriminate Ec.
      * intros [<- | Hin].
        -- simpl. intros [H | H].
           ++ subst. discriminate Ec.
           ++ exact (IH x (or_introl eq_refl) H).
        -- exact (IH l (or_intror Hin)).
Qed.

Lemma split_nl_app_newline (x rest : jstr) :
  ~ In 10 x -> split_nl (x ++ 10 :: rest) = x :: split_nl rest.
Proof.
  induction x as [|c x IH]; intros Hx; simpl; [reflexivity|].
  assert (Ec : N.eqb c 10 = false).
  { apply N.eqb_neq. intros ->. apply Hx. now left. }
  rewrite Ec, IH; [reflexivity|]. intros H. apply Hx. now right.
Qed.

Lemma split_nl_single (x : jstr) : ~ In 10 x -> split_nl x = [x].
Proof.
  induction x as [|c x IH]; intros Hx; simpl; [reflexivity|].
  assert (Ec : N.eqb c 10 = false).
  { apply N.eqb_neq. intros ->. apply Hx. now left. }
  rewrite Ec, IH; [reflexivity|]. intros H. apply Hx. now right.
Qed.

Lemma split_nl_join (xs : list jstr) :
  xs <> [] -> (forall x, In x xs -> ~ In 10 x) -> split_nl (join NL xs) = xs.
Proof.
  induction xs as [|x xs IH]; intros Hne Hx; [congruence|].
  destruct xs as [|y ys].
  - simpl. apply split_nl_single, Hx. now left.
  - change (join NL (x :: y :: ys)) with (x ++ 10 :: join NL (y :: ys)).
    rewrite split_nl_app_newline by (apply Hx; now left).
    rewrite IH; [reflexivity | discriminate |].
    intros z Hz. apply Hx. now right.
Qed.

Lemma join_nonempty (sep : jstr) (xs : list jstr) (x : jstr) :
  In x xs -> x <> [] -> join sep xs <> [].
Proof.
  induction xs as [|y xs IH]; intros Hin Hx; [destruct Hin|].
  destruct xs as [|z zs].
  - destruct Hin as [-> | []]. exact Hx.
  - change (join sep (y :: z :: zs)) with (y ++ sep ++ join sep (z :: zs)).
    destruct Hin as [-> | Hin].
    + destruct x; [congruence | discriminate].
    + intros H. apply app_eq_nil in H as [_ H].
      apply app_eq_nil in H as [_ H]. exact (IH Hin Hx H).
Qed.

Lemma fallback_keep_nonempty (l : jstr) : fallback_keep l = true -> l <> [].
Proof. intros H ->. discriminate H. Qed.

Lemma agentResponses_untagged (raw : jstr) :
  (forall l, In l (split_nl raw) -> tagged_line l = false) ->
  agentResponses raw = [].
Proof.
  intros H. apply collect_responses_nil. intros l a t Hin Hm.
  specialize (H l Hin). unfold tagged_line in H. now rewrite Hm in H.
Qed.

Lemma collect_responses_from_line (lines : list jstr) (r : agent_response) :
  In r (collect_responses lines) ->
  exists l, In l lines /\ agent_match l = Some (agent r, message r) /\
            message r <> NONE_TEXT.
Proof.
  induction lines as [|l lines IH]; simpl; [tauto|].
  destruct (agent_match l) as [[a m]|] eqn:E.
  - destruct (jstr_eqb m NONE_TEXT) eqn:En; simpl.
    + intros Hin. destruct (IH Hin) as (l' & H1 & H2 & H3). exists l'. tauto.
    + intros [<- | Hin].
      * exists l. simpl. repeat split; [now left | exact E |].
        intros ->. rewrite jstr_eqb_refl in En. discriminate.
      * destruct (IH Hin) as (l' & H1 & H2 & H3). exists l'. tauto.
  - intros Hin. destruct (IH Hin) as (l' & H1 & H2 & H3). exists l'. tauto.
Qed.

(** * Claims about the composition *)

(** C1 (as stated): the claim's equation without the final guard fails
    when every message of a data-bearing reply is too short: the reply is
    then the sentinel, not the empty join. *)
Lemma C1_counterexample :
  let raw := u "[Weather]: sunny" in
  existsb (fun r => data_bearing (agent r)) (agentResponses raw) = true /\
  override_join (agentResponses raw) = [] /\
  compose raw = NO_RESPONSE /\
  compose raw <> override_join (agentResponses raw).
Proof.
  intros raw. split; [|split; [|split]]; vm_compute; first [reflexivity | discriminate].
Qed.

(** C1 (amended): when an agent message of [CAISO_Market] or [Weather] was
    extracted, the reply is the blank-line join of the messages that are not
    ["None"] and longer than 10 code units, in line order, when that join is
    non-empty, and the sentinel ["No response generated"] when it is empty;
    scenario 1 gives ["Cloud cover 85%\n\nLoad down 300MW\n\nDeviation
    confirmed."]. *)
Theorem compose_data_agent_combined :
  (forall raw,
     existsb (fun r => data_bearing (agent r)) (agentResponses raw) = true ->
     (override_join (agentResponses raw) <> [] ->
        compose raw = override_join (agentResponses raw)) /\
     (override_join (agentResponses raw) = [] -> compose raw = NO_RESPONSE)) /\
  compose scenario_1 =
    u "Cloud cover 85%" ++ BLANK_LINE ++ u "Load down 300MW" ++ BLANK_LINE
    ++ u "Deviation confirmed.".
Proof.
  split.
  - intros raw H. rewrite (compose_override raw H). split.
    + apply or_no_response_nonempty.
    + intros ->. reflexivity.
  - vm_compute. reflexivity.
Qed.

Lemma compose_data_agent_combined_witness :
  existsb (fun r => data_bearing (agent r)) (agentResponses scenario_1) = true /\
  compose scenario_1 = override_join (agentResponses scenario_1).
Proof.
  assert (H : existsb (fun r => data_bearing (agent r))
                (agentResponses scenario_1) = true) by (vm_compute; reflexivity).
  split; [exact H|].
  apply (proj1 (proj1 compose_data_agent_combined scenario_1 H)).
  vm_compute. discriminate.
Defined.

(** C2: when the extracted messages are non-empty and none comes from
    [CAISO_Market] or [Weather], the reply is the text of the last message;
    scenario 2 gives ["Deviation confirmed."]. *)
Theorem compose_last_message :
  (forall raw rs r,
     agentResponses raw = rs ++ [r] ->
     existsb (fun r => data_bearing (agent r)) (agentResponses raw) = false ->
     compose raw = message r) /\
  compose scenario_2 = u "Deviation confirmed.".
Proof.
  split.
  - intros raw rs r E H. exact (compose_last raw rs r E H).
  - vm_compute. reflexivity.
Qed.

Lemma compose_last_message_witness :
  agentResponses scenario_2 =
    [] ++ [{| agent := u "Coordinator"; message := u "Deviation confirmed." |}] /\
  compose scenario_2 = u "Deviation confirmed.".
Proof.
  assert (E : agentResponses scenario_2 =
    [] ++ [{| agent := u "Coordinator"; message := u "Deviation confirmed." |}])
    by (vm_compute; reflexivity).
  split; [exact E|].
  apply (proj1 compose_last_message scenario_2 [] _ E).
  vm_compute. reflexivity.
Defined.

(** C3: when no line is tagged, the reply is the newline join of the lines
    that are not blank after [trim], do not start with ["User:"] and contain
    none of ["UserWarning"], ["INFO"], ["DEBUG"], ["Warning:"]; when that
    join is empty (as for the empty output) it is the sentinel. *)
Theorem compose_untagged_fallback :
  (forall raw,
     (forall l, In l (split_nl raw) -> tagged_line l = false) ->
     let j := join NL (filter fallback_keep (split_nl raw)) in
     (j <> [] -> compose raw = j) /\ (j = [] -> compose raw = NO_RESPONSE)) /\
  compose scenario_3 = u "Plain diagnostic line" /\
  compose [] = NO_RESPONSE.
Proof.
  split; [|split; vm_compute; reflexivity].
  intros raw H j.
  rewrite (compose_fallback raw (agentResponses_untagged raw H)).
  unfold raw_fallback. fold j. split.
  - apply or_no_response_nonempty.
  - intros ->. reflexivity.
Qed.

Lemma compose_untagged_fallback_witness :
  compose scenario_3 = u "Plain diagnostic line".
Proof.
  assert (H : forall l, In l (split_nl scenario_3) -> tagged_line l = false).
  { intros l Hin. vm_compute in Hin.
    repeat destruct Hin as [<- | Hin]; try destruct Hin; reflexivity. }
  apply (proj1 (proj1 compose_untagged_fallback scenario_3 H)).
  vm_compute. discriminate.
Defined.

(** C5 (as stated): a [CAISO_Market] or [Weather] line whose text is
    ["None"] matches the tagged format but is dropped before the override is
    decided, so it does not switch the override on: here the reply is the
    last message ["ok"], not the sentinel that the override would give. *)
Lemma C5_counterexample :
  let raw := u "[Weather]: None" ++ NL ++ u "[Coordinator]: ok" in
  (exists l a t, In l (split_nl raw) /\ agent_match l = Some (a, t) /\
                 data_bearing a = true) /\
  or_no_response (override_join (agentResponses raw)) = NO_RESPONSE /\
  compose raw = u "ok" /\
  compose raw <> or_no_response (override_join (agentResponses raw)).
Proof.
  intros raw. split; [|split; [|split]].
  - exists (u "[Weather]: None"), WEATHER, NONE_TEXT.
    vm_compute. split; [now left | split; reflexivity].
  - vm_compute. reflexivity.
  - vm_compute. reflexivity.
  - vm_compute. discriminate.
Qed.

(** C5 (amended): when a tagged line of [CAISO_Market] or [Weather] has a
    text other than ["None"] (so that it is an extracted agent message), the
    override takes effect even if that text is 10 code units or shorter:
    the reply is the blank-line join of the long messages, or the sentinel
    ["No response generated"] when no message is long enough. A tagged
    [CAISO_Market] or [Weather] line whose text is ["None"] is discarded and
    does not trigger the override: when every such line has the text
    ["None"], the reply is the last extracted message. *)
Theorem compose_override_any_data_line :
  (forall raw l a t,
     In l (split_nl raw) -> agent_match l = Some (a, t) ->
     data_bearing a = true -> t <> NONE_TEXT ->
     (override_join (agentResponses raw) <> [] ->
        compose raw = override_join (agentResponses raw)) /\
     (override_join (agentResponses raw) = [] -> compose raw = NO_RESPONSE)) /\
  (forall raw rs r,
     agentResponses raw = rs ++ [r] ->
     (forall l a t, In l (split_nl raw) -> agent_match l = Some (a, t) ->
                    data_bearing a = true -> t = NONE_TEXT) ->
     compose raw = message r).
Proof.
  split.
  - intros raw l a t Hin Hm Ha Ht.
    assert (H : existsb (fun r => data_bearing (agent r)) (agentResponses raw) = true).
    { apply (existsb_In_true _ _ {| agent := a; message := t |}); [|exact Ha].
      exact (collect_responses_In _ l a t Hin Hm Ht). }
    rewrite (compose_override raw H). split.
    + apply or_no_response_nonempty.
    + intros ->. reflexivity.
  - intros raw rs r E Hnone. apply (compose_last raw rs r E).
    destruct (existsb (fun r => data_bearing (agent r)) (agentResponses raw)) eqn:Ex;
      [|reflexivity].
    apply existsb_exists in Ex as (r' & Hin & Hd).
    destruct (collect_responses_from_line _ _ Hin) as (l & Hl & Hm & Hn).
    exfalso. exact (Hn (Hnone l _ _ Hl Hm Hd)).
Qed.

Lemma compose_override_any_data_line_witness :
  compose (u "[Weather]: sunny" ++ NL ++ u "[Coordinator]: ok") = NO_RESPONSE /\
  compose (u "[Weather]: None" ++ NL ++ u "[Coordinator]: ok") = u "ok".
Proof.
  split.
  - apply (proj2 (proj1 compose_override_any_data_line
                    (u "[Weather]: sunny" ++ NL ++ u "[Coordinator]: ok")
                    (u "[Weather]: sunny") WEATHER (u "sunny")
                    ltac:(vm_compute; now left) ltac:(vm_compute; reflexivity)
                    ltac:(vm_compute; reflexivity) ltac:(vm_compute; discriminate))).
    vm_compute. reflexivity.
  - apply (proj2 compose_override_any_data_line
             (u "[Weather]: None" ++ NL ++ u "[Coordinator]: ok") []
             {| agent := u "Coordinator"; message := u "ok" |}).
    + vm_compute. reflexivity.
    + intros l a t Hin Hm Hd. vm_compute in Hin.
      destruct Hin as [<- | [<- | []]]; vm_compute in Hm; injection Hm as <- <-.
      * vm_compute. reflexivity.
      * vm_compute in Hd. discriminate Hd.
Defined.

(** C6: when the only tagged line has the text ["None"], no agent message
    is extracted and the reply comes from the raw-output fallback. *)
Theorem compose_only_none_line :
  forall raw l a,
    In l (split_nl raw) -> agent_match l = Some (a, NONE_TEXT) ->
    (forall l', In l' (split_nl raw) -> tagged_line l' = true -> l' = l) ->
    agentResponses raw = [] /\ compose raw = or_no_response (raw_fallback raw).
Proof.
  intros raw l a Hin Hm Honly.
  assert (E : agentResponses raw = []).
  { apply collect_responses_nil. intros l' a' t' Hin' Hm'.
    assert (Hl : l' = l).
    { apply Honly; [exact Hin'|]. unfold tagged_line. now rewrite Hm'. }
    subst l'. rewrite Hm in Hm'. now injection Hm' as _ <-. }
  split; [exact E | exact (compose_fallback raw E)].
Qed.

Lemma compose_only_none_line_witness :
  compose (u "[Coordinator]: None") = u "[Coordinator]: None".
Proof.
  assert (Honly : forall l', In l' (split_nl (u "[Coordinator]: None")) ->
                  tagged_line l' = true -> l' = u "[Coordinator]: None").
  { intros l' Hin _. vm_compute in Hin. destruct Hin as [<- | []]. reflexivity. }
  rewrite (proj2 (compose_only_none_line (u "[Coordinator]: None")
                   (u "[Coordinator]: None") (u "Coordinator")
                   ltac:(vm_compute; now left) ltac:(vm_compute; reflexivity)
                   Honly)).
  vm_compute. reflexivity.
Defined.

(** C10: in the fallback, a kept line reaches the reply unchanged, with its
    leading and trailing white space: it is one of the reply's lines. *)
Theorem fallback_keeps_lines_verbatim :
  forall raw l,
    (forall l', In l' (split_nl raw) -> tagged_line l' = false) ->
    In l (split_nl raw) -> fallback_keep l = true ->
    In l (split_nl (compose raw)).
Proof.
  intros raw l Hnone Hin Hkeep.
  rewrite (compose_fallback raw (agentResponses_untagged raw Hnone)).
  unfold raw_fallback.
  assert (Hl : In l (filter fallback_keep (split_nl raw))).
  { apply filter_In. now split. }
  rewrite or_no_response_nonempty
    by exact (join_nonempty NL _ l Hl (fallback_keep_nonempty l Hkeep)).
  rewrite split_nl_join.
  - exact Hl.
  - destruct (filter fallback_keep (split_nl raw)); [destruct Hl | discriminate].
  - intros x Hx. apply filter_In in Hx as [Hx _].
    exact (split_nl_no_newline raw x Hx).
Qed.

Lemma fallback_keeps_lines_verbatim_witness :
  In (u "  indented line ") (split_nl (compose (u "  indented line " ++ NL ++ u "DEBUG x"))).
Proof.
  apply fallback_keeps_lines_verbatim.
  - intros l' Hin. vm_compute in Hin.
    destruct Hin as [<- | [<- | []]]; reflexivity.
  - vm_compute. now left.
  - vm_compute. reflexivity.
Defined.

(** * Claims about the request handler *)

(** C4: when the child exits with a code other than 0 (or is killed by a
    signal), the client gets the generic 500 failure, the error output is
    only logged, and the reply does not depend on the standard output: no
    extraction or composition takes place. *)
Theorem nonzero_exit_generic_failure :
  forall message spawn code outs errs,
    truthy message = true ->
    spawn message = Closed code outs errs ->
    code <> Some 0%Z ->
    handle_chat message spawn =
      {| spawned := Some message;
         result := Responded [LogExitCode code; LogPythonError (List.concat errs)]
                     generic_failure |}.
Proof.
  intros message spawn code outs errs Ht Hs Hc.
  unfold handle_chat. rewrite Ht, Hs. simpl.
  destruct code as [[|p|p]|]; try reflexivity. congruence.
Qed.

Lemma nonzero_exit_generic_failure_witness :
  handle_chat (JStr (u "Why did load drop?"))
    (fun _ => Closed (Some 1%Z) [u "[Weather]: Cloud cover 85%"] [u "Traceback"]) =
  {| spawned := Some (JStr (u "Why did load drop?"));
     result := Responded [LogExitCode (Some 1%Z); LogPythonError (u "Traceback")]
                 generic_failure |}.
Proof.
  apply (nonzero_exit_generic_failure _ _ (Some 1%Z) [u "[Weather]: Cloud cover 85%"]
           [u "Traceback"]); [reflexivity | reflexivity | discriminate].
Defined.

(** C7: when the child cannot be started, [spawn] reports it by an
    ['error'] event on a later tick; the handler registers no ['error']
    listener, so the event is thrown as an uncaught exception outside the
    handler's [try]: no reply is sent at all. *)
Theorem spawn_error_crashes :
  forall message spawn errno,
    truthy message = true ->
    spawn message = SpawnError errno ->
    result (handle_chat message spawn) = Crashed.
Proof.
  intros message spawn errno Ht Hs.
  unfold handle_chat. rewrite Ht, Hs. reflexivity.
Qed.

Lemma spawn_error_crashes_witness :
  result (handle_chat (JStr (u "hello")) (fun _ => SpawnError (-2)%Z)) = Crashed.
Proof. apply (spawn_error_crashes _ _ (-2)%Z); reflexivity. Defined.

(** C8: after a successful exit the reply is determined by the accumulated
    standard output alone: it does not depend on how that output was split
    into chunks, nor on the error output, and it is [compose] of it. *)
Theorem compose_function_of_raw_output :
  forall message spawn1 spawn2 outs1 outs2 errs1 errs2,
    spawn1 message = Closed (Some 0%Z) outs1 errs1 ->
    spawn2 message = Closed (Some 0%Z) outs2 errs2 ->
    List.concat outs1 = List.concat outs2 ->
    handle_chat message spawn1 = handle_chat message spawn2 /\
    (truthy message = true ->
     result (handle_chat message spawn1) =
       Responded [] {| status := 200;
                       body := RResponse (compose (List.concat outs1)) |}).
Proof.
  intros message spawn1 spawn2 outs1 outs2 errs1 errs2 H1 H2 Hc.
  unfold handle_chat. rewrite H1, H2, Hc.
  split; [reflexivity|]. intros Ht. rewrite Ht. reflexivity.
Qed.

Lemma compose_function_of_raw_output_witness :
  handle_chat (JStr (u "q"))
    (fun _ => Closed (Some 0%Z) [u "[Coordinator]: Deviation "; u "confirmed."] []) =
  handle_chat (JStr (u "q"))
    (fun _ => Closed (Some 0%Z) [scenario_2] [u "UserWarning: x"]).
Proof.
  apply (compose_function_of_raw_output (JStr (u "q")) _ _
           [u "[Coordinator]: Deviation "; u "confirmed."] [scenario_2]
           [] [u "UserWarning: x"]); vm_compute; reflexivity.
Defined.

(** C9: a falsy [message] ([""], [null], [false], [0] or an absent field) is
    answered with 400 ["Message is required"] and no process is spawned. *)
Theorem falsy_message_rejected :
  forall message spawn,
    truthy message = false ->
    handle_chat message spawn =
      {| spawned := None;
         result := Responded [] {| status := 400; body := RError MSG_REQUIRED |} |}.
Proof.
  intros message spawn Ht. unfold handle_chat. rewrite Ht. reflexivity.
Qed.

Lemma falsy_message_rejected_witness :
  spawned (handle_chat (JStr []) (fun _ => Closed (Some 0%Z) [] [])) = None.
Proof. rewrite (falsy_message_rejected (JStr []) _ eq_refl). reflexivity. Defined.

(** * Further properties of the code *)

(** ** The agent-line pattern *)

Lemma take_word_app (w r : jstr) (c : N) :
  forallb is_word w = true -> is_word c = false ->
  take_word (w ++ c :: r) = (w, c :: r).
Proof.
  intros Hw Hc. induction w as [|d w IH]; simpl; [now rewrite Hc|].
  simpl in Hw. apply andb_prop in Hw as [Hd Hw]. now rewrite Hd, (IH Hw).
Qed.

Lemma take_word_spec (s w r : jstr) :
  take_word s = (w, r) ->
  s = w ++ r /\ forallb is_word w = true /\
  match r with c :: _ => is_word c = false | [] => True end.
Proof.
  revert w r. induction s as [|c s IH]; intros w r H; simpl in H.
  - injection H as <- <-. tauto.
  - destruct (is_word c) eqn:Hc.
    + destruct (take_word s) as [w' r'] eqn:E. injection H as <- <-.
      destruct (IH w' r' eq_refl) as (-> & Hw & Hr).
      simpl. rewrite Hc, Hw. tauto.
    + injection H as <- <-. simpl. tauto.
Qed.

(** X1: a tagged line built from a non-empty word-character name and a
    non-empty text without line terminators is parsed back to that name and
    text. *)
Theorem agent_match_roundtrip :
  forall name text,
    name <> [] -> forallb is_word name = true ->
    text <> [] -> forallb is_dot text = true ->
    agent_match ([91] ++ name ++ AGENT_SEP ++ text) = Some (name, text).
Proof.
  intros name text Hn Hw Ht Hd. unfold agent_match, AGENT_SEP. simpl.
  rewrite (take_word_app name (58 :: 32 :: text) 93 Hw eq_refl).
  destruct name as [|c name]; [congruence|].
  destruct text as [|d text]; [congruence|]. now rewrite Hd.
Qed.

Lemma agent_match_roundtrip_witness :
  agent_match ([91] ++ u "CAISO_Market" ++ AGENT_SEP ++ u "Load down 300MW")
  = Some (u "CAISO_Market", u "Load down 300MW").
Proof.
  apply agent_match_roundtrip;
    [discriminate | vm_compute; reflexivity | discriminate | vm_compute; reflexivity].
Defined.

Lemma agent_match_shape :
  forall l a t,
    agent_match l = Some (a, t) ->
    l = [91] ++ a ++ AGENT_SEP ++ t /\
    a <> [] /\ forallb is_word a = true /\ t <> [] /\ forallb is_dot t = true.
Proof.
  intros l a t H. unfold agent_match in H.
  destruct l as [|c rest]; [discriminate|].
  assert (Hc : c = 91).
  { repeat match goal with
           | H : context [match ?x with _ => _ end] |- _ => destruct x
           end; first [discriminate | reflexivity]. }
  subst c. destruct (take_word rest) as [name after] eqn:E.
  destruct (take_word_spec _ _ _ E) as (-> & Hw & _).
  destruct name as [|n0 name]; [discriminate|].
  repeat match goal with
         | H : context [match ?x with _ => _ end] |- _ =>
             let Ex := fresh "Ex" in destruct x eqn:Ex
         end; try discriminate.
  injection H as <- <-. subst. unfold AGENT_SEP. simpl.
  repeat split; try discriminate; assumption.
Qed.

(** X2: a line the pattern accepts is exactly ["["], a non-empty run of
    word characters, ["]: "] and a non-empty text free of line terminators. *)
Theorem agent_match_sound :
  forall l a t,
    agent_match l = Some (a, t) ->
    l = [91] ++ a ++ AGENT_SEP ++ t /\
    a <> [] /\ forallb is_word a = true /\ t <> [] /\ forallb is_dot t = true.
Proof. exact agent_match_shape. Qed.

Lemma agent_match_sound_witness :
  u "[Weather]: Cloud cover 85%" = [91] ++ u "Weather" ++ AGENT_SEP ++ u "Cloud cover 85%".
Proof.
  apply (proj1 (agent_match_sound (u "[Weather]: Cloud cover 85%") (u "Weather")
                  (u "Cloud cover 85%") ltac:(vm_compute; reflexivity))).
Defined.

Lemma agent_match_crlf :
  forall l, agent_match (l ++ [13]) = None.
Proof.
  intros l. destruct (agent_match (l ++ [13])) as [[a t]|] eqn:E; [|reflexivity].
  destruct (agent_match_shape _ _ _ E) as (Hl & _ & _ & Ht & Hd).
  exfalso. destruct (exists_last Ht) as (t' & c & ->).
  rewrite !app_assoc in Hl. apply app_inj_tail in Hl as [_ <-].
  rewrite forallb_app in Hd. apply andb_prop in Hd as [_ Hd].
  discriminate Hd.
Qed.

(** X3: when every line of the output ends in a carriage return (output
    written with CRLF line ends; the empty piece after a final CRLF
    included), no agent message is extracted, since [.] does not match
    ["\r"]: the reply then comes from the raw-output fallback. *)
Theorem crlf_output_no_agent_messages :
  forall raw,
    (forall l, In l (split_nl raw) -> l = [] \/ exists l', l = l' ++ [13]) ->
    agentResponses raw = [] /\ compose raw = or_no_response (raw_fallback raw).
Proof.
  intros raw H.
  assert (E : agentResponses raw = []).
  { apply collect_responses_nil. intros l a t Hin Hm.
    destruct (H l Hin) as [-> | (l' & ->)]; [discriminate Hm|].
    rewrite agent_match_crlf in Hm. discriminate Hm. }
  split; [exact E | exact (compose_fallback raw E)].
Qed.

Lemma crlf_output_no_agent_messages_witness :
  agentResponses (u "[Weather]: Cloud cover 85%" ++ [13; 10]
                  ++ u "[Coordinator]: Deviation confirmed." ++ [13; 10]) = [].
Proof.
  apply (crlf_output_no_agent_messages _).
  intros l Hin. vm_compute in Hin.
  destruct Hin as [<- | [<- | [<- | []]]].
  - right. exists (u "[Weather]: Cloud cover 85%"). vm_compute. reflexivity.
  - right. exists (u "[Coordinator]: Deviation confirmed."). vm_compute. reflexivity.
  - now left.
Defined.

(** ** Extraction *)

Lemma split_nl_not_nil (s : jstr) : split_nl s <> [].
Proof.
  induction s as [|c s IH]; simpl; [discriminate|].
  destruct (N.eqb c 10); [discriminate|]. destruct (split_nl s); discriminate.
Qed.

Lemma split_nl_app (a b : jstr) :
  split_nl (a ++ 10 :: b) = split_nl a ++ split_nl b.
Proof.
  induction a as [|c a IH]; simpl; [reflexivity|].
  destruct (N.eqb c 10); [now rewrite IH|].
  rewrite IH. destruct (split_nl a) as [|x xs] eqn:E; [now destruct (split_nl_not_nil a)|].
  reflexivity.
Qed.

Lemma collect_responses_app (l1 l2 : list jstr) :
  collect_responses (l1 ++ l2) = collect_responses l1 ++ collect_responses l2.
Proof.
  induction l1 as [|l l1 IH]; simpl; [reflexivity|].
  destruct (agent_match l) as [[a m]|]; [|exact IH].
  destruct (negb (jstr_eqb m NONE_TEXT)); simpl; now rewrite IH.
Qed.

(** X4: extraction is compositional over line-aligned output: the agent
    messages of two outputs joined by a newline are those of the first
    followed by those of the second. *)
Theorem agentResponses_app :
  forall a b, agentResponses (a ++ NL ++ b) = agentResponses a ++ agentResponses b.
Proof.
  intros a b. unfold agentResponses, NL. simpl.
  now rewrite split_nl_app, collect_responses_app.
Qed.

Lemma agentResponses_shape :
  forall raw r,
    In r (agentResponses raw) ->
    In ([91] ++ agent r ++ AGENT_SEP ++ message r) (split_nl raw) /\
    agent r <> [] /\ forallb is_word (agent r) = true /\
    message r <> [] /\ message r <> NONE_TEXT /\ forallb is_dot (message r) = true.
Proof.
  intros raw r. unfold agentResponses. generalize (split_nl raw) as lines.
  induction lines as [|l lines IH]; simpl; [tauto|].
  destruct (agent_match l) as [[a m]|] eqn:E.
  - destruct (agent_match_shape _ _ _ E) as (Hl & Ha & Hw & Hm & Hd).
    destruct (jstr_eqb m NONE_TEXT) eqn:En; simpl.
    + intros Hin. destruct (IH Hin) as [H1 H2]. split; [now right | exact H2].
    + intros [<- | Hin].
      * split; [left; now rewrite Hl|]. cbn [agent message]. repeat split; auto.
        intros ->. rewrite jstr_eqb_refl in En. discriminate.
      * destruct (IH Hin) as [H1 H2]. split; [now right | exact H2].
  - intros Hin. destruct (IH Hin) as [H1 H2]. split; [now right | exact H2].
Qed.

(** X5: every extracted agent message comes from one line of the output
    written [[agent]: message], with a non-empty word-character agent name
    and a non-empty message that is not ["None"] and has no line
    terminator. *)
Theorem agentResponses_wellformed :
  forall raw r,
    In r (agentResponses raw) ->
    In ([91] ++ agent r ++ AGENT_SEP ++ message r) (split_nl raw) /\
    agent r <> [] /\ forallb is_word (agent r) = true /\
    message r <> [] /\ message r <> NONE_TEXT /\ forallb is_dot (message r) = true.
Proof. exact agentResponses_shape. Qed.

Lemma agentResponses_wellformed_witness :
  In ([91] ++ u "Coordinator" ++ AGENT_SEP ++ u "Deviation confirmed.") (split_nl scenario_1).
Proof.
  apply (proj1 (agentResponses_wellformed scenario_1
                  {| agent := u "Coordinator"; message := u "Deviation confirmed." |}
                  ltac:(vm_compute; right; right; now left))).
Defined.

(** ** The shape of the reply *)

(** X6: when no line is tagged and the fallback keeps something, every line
    of the reply is a line of the output that passes the noise filter. *)
Theorem fallback_reply_lines :
  forall raw,
    (forall l, In l (split_nl raw) -> tagged_line l = false) ->
    raw_fallback raw <> [] ->
    forall l, In l (split_nl (compose raw)) ->
    In l (split_nl raw) /\ fallback_keep l = true.
Proof.
  intros raw Hnone Hne l Hl.
  rewrite (compose_fallback raw (agentResponses_untagged raw Hnone)),
    (or_no_response_nonempty _ Hne) in Hl.
  unfold raw_fallback in Hl. rewrite split_nl_join in Hl.
  - now apply filter_In in Hl.
  - intros E. apply Hne. unfold raw_fallback. now rewrite E.
  - intros x Hx. apply filter_In in Hx as [Hx _].
    exact (split_nl_no_newline raw x Hx).
Qed.

Lemma fallback_reply_lines_witness :
  fallback_keep (u "Plain diagnostic line") = true.
Proof.
  assert (H : forall l, In l (split_nl scenario_3) -> tagged_line l = false).
  { intros l Hin. vm_compute in Hin.
    repeat destruct Hin as [<- | Hin]; try destruct Hin; reflexivity. }
  apply (proj2 (fallback_reply_lines scenario_3 H ltac:(vm_compute; discriminate)
                  (u "Plain diagnostic line") ltac:(vm_compute; now left))).
Defined.

(** X7: without a [CAISO_Market] or [Weather] message the reply is a single
    line: it contains no line terminator. *)
Theorem last_message_reply_single_line :
  forall raw,
    agentResponses raw <> [] ->
    existsb (fun r => data_bearing (agent r)) (agentResponses raw) = false ->
    forallb is_dot (compose raw) = true.
Proof.
  intros raw Hne H.
  destruct (exists_last Hne) as (rs & r & E).
  rewrite (compose_last raw rs r E H).
  apply (agentResponses_shape raw r).
  rewrite E. apply in_or_app. right. now left.
Qed.

Lemma last_message_reply_single_line_witness :
  forallb is_dot (compose (u "INFO boot" ++ NL ++ scenario_2)) = true.
Proof.
  apply last_message_reply_single_line;
    [vm_compute; discriminate | vm_compute; reflexivity].
Defined.

(** ** The handler's replies *)

Lemma compose_not_nil (raw : jstr) : compose raw <> [].
Proof. unfold compose, or_no_response. destruct (formattedResponse raw); discriminate. Qed.

(** X8: every reply the handler sends is a 200 with a non-empty response, a
    400 with ["Message is required"], or a 500 with one of the two generic
    failure messages. *)
Theorem handle_chat_reply_shapes :
  forall message spawn logs r,
    result (handle_chat message spawn) = Responded logs r ->
    (status r = 200%Z /\ exists t, body r = RResponse t /\ t <> []) \/
    (status r = 400%Z /\ body r = RError MSG_REQUIRED) \/
    (status r = 500%Z /\ (body r = RError MSG_PROCESS_FAILED \/
                          body r = RError MSG_GET_FAILED)).
Proof.
  intros message spawn logs r H. unfold handle_chat in H.
  destruct (truthy message); simpl in H.
  - destruct (spawn message) as [|errno|[[|p|p]|] outs errs]; simpl in H;
      try discriminate H; injection H as _ <-; simpl; try tauto.
    left. split; [reflexivity|]. eexists. split; [reflexivity|]. apply compose_not_nil.
  - injection H as _ <-. simpl. tauto.
Qed.

Lemma handle_chat_reply_shapes_witness :
  status {| status := 200; body := RResponse (u "ok") |} = 200%Z.
Proof.
  destruct (handle_chat_reply_shapes (JStr (u "q"))
              (fun _ => Closed (Some 0%Z) [u "[Coordinator]: ok"] []) []
              {| status := 200; body := RResponse (u "ok") |} eq_refl)
    as [[H _] | [[H _] | [H _]]]; [exact H | discriminate H | discriminate H].
Defined.

(** X9: the handler answers 200 exactly when the message is truthy and the
    child process exited with code 0. *)
Theorem handle_chat_ok_iff :
  forall message spawn logs r,
    result (handle_chat message spawn) = Responded logs r ->
    (status r = 200%Z <->
     truthy message = true /\
     exists outs errs, spawn message = Closed (Some 0%Z) outs errs).
Proof.
  intros message spawn logs r H. unfold handle_chat in H.
  destruct (truthy message) eqn:Ht; simpl in H.
  - destruct (spawn message) as [|errno|[[|p|p]|] outs errs] eqn:Es; simpl in H;
      try discriminate H; injection H as _ <-; simpl; split; intros Hx;
      try discriminate Hx; try reflexivity;
      try (destruct Hx as (_ & outs' & errs' & Hx); discriminate Hx).
    split; [reflexivity|]. now exists outs, errs.
  - injection H as _ <-. simpl. split; [discriminate | intros [Hx _]; discriminate Hx].
Qed.

Lemma handle_chat_ok_iff_witness :
  truthy (JStr (u "q")) = true.
Proof.
  apply (proj1 (proj1 (handle_chat_ok_iff (JStr (u "q"))
           (fun _ => Closed (Some 0%Z) [u "[Coordinator]: ok"] []) []
           {| status := 200; body := RResponse (u "ok") |} eq_refl) eq_refl)).
Defined.

(** X10: the child's error output never reaches the client: two runs that
    differ only in what the child wrote to stderr get the same reply. *)
Theorem stderr_not_in_reply :
  forall message spawn1 spawn2 code outs errs1 errs2,
    spawn1 message = Closed code outs errs1 ->
    spawn2 message = Closed code outs errs2 ->
    reply_of (result (handle_chat message spawn1)) =
    reply_of (result (handle_chat message spawn2)).
Proof.
  intros message spawn1 spawn2 code outs errs1 errs2 H1 H2.
  unfold handle_chat. destruct (truthy message); [|reflexivity].
  rewrite H1, H2. destruct code as [[|p|p]|]; reflexivity.
Qed.

Lemma stderr_not_in_reply_witness :
  reply_of (result (handle_chat (JStr (u "q"))
                      (fun _ => Closed (Some 1%Z) [] [u "secret stack trace"]))) =
  reply_of (result (handle_chat (JStr (u "q")) (fun _ => Closed (Some 1%Z) [] []))).
Proof. apply (stderr_not_in_reply _ _ _ (Some 1%Z) [] [u "secret stack trace"] []); reflexivity. Defined.

(** ** The chat widget *)

Lemma remove_node_last (l : list node) (k : nat) :
  no_indicator l -> remove_node (NIndicator k) (l ++ [NIndicator k]) = l.
Proof.
  induction l as [|x l IH]; intros H; simpl.
  - now rewrite Nat.eqb_refl.
  - destruct x as [t w|i].
    + simpl. f_equal. apply IH. intros n Hn. apply (H n). now right.
    + exfalso. apply (H i). now left.
Qed.

Lemma send_message_flow (s : ui) (server : jvalue -> outcome) :
  trim (input_value s) <> [] -> no_indicator (history s) ->
  send_message s server =
    {| history := history s ++ [NMessage (Some (trim (input_value s))) User;
                                NMessage (client_reply (server (JStr (trim (input_value s))))) Bot];
       input_value := [];
       input_disabled := false;
       button_disabled := false;
       next_id := S (next_id s) |}.
Proof.
  intros Hne Hh. unfold send_message.
  destruct (trim (input_value s)) as [|c m] eqn:E; [congruence|].
  rewrite remove_node_last.
  - now rewrite <- app_assoc.
  - intros n Hn. apply in_app_or in Hn as [Hn | [Hn | []]]; [exact (Hh n Hn) | discriminate Hn].
Qed.

(** X12: sending a non-blank input appends exactly the trimmed user message
    and then the bot's answer to the history (the typing indicator is added
    and removed again), clears the input and re-enables the controls. *)
Theorem send_message_appends_exchange :
  forall s server,
    trim (input_value s) <> [] -> no_indicator (history s) ->
    history (send_message s server) =
      history s ++ [NMessage (Some (trim (input_value s))) User;
                    NMessage (client_reply (server (JStr (trim (input_value s))))) Bot] /\
    no_indicator (history (send_message s server)) /\
    input_value (send_message s server) = [] /\
    input_disabled (send_message s server) = false /\
    button_disabled (send_message s server) = false.
Proof.
  intros s server Hne Hh. rewrite (send_message_flow s server Hne Hh). simpl.
  repeat split; [|reflexivity..].
  intros n Hn. apply in_app_or in Hn as [Hn | [Hn | [Hn | []]]];
    [exact (Hh n Hn) | discriminate Hn | discriminate Hn].
Qed.

Lemma send_message_appends_exchange_witness :
  input_value (send_message (empty_ui (u " hi ")) (fun _ => Crashed)) = [].
Proof.
  apply (send_message_appends_exchange (empty_ui (u " hi ")) (fun _ => Crashed)).
  - vm_compute. discriminate.
  - intros n [].
Defined.

(** X13: end to end, a non-blank input is never rejected by the server, and
    the bot message shown is a non-empty text: the composed reply of a
    successful run, the ["Error: "] form of one of the two generic failures,
    or the apology shown when the server dies without answering. *)
Theorem chat_roundtrip_bot_text :
  forall s spawn,
    trim (input_value s) <> [] -> no_indicator (history s) ->
    let m := trim (input_value s) in
    (forall logs r, result (handle_chat (JStr m) spawn) = Responded logs r ->
                    status r <> 400%Z) /\
    exists t,
      history (send_message s (fun v => result (handle_chat v spawn))) =
        history s ++ [NMessage (Some m) User; NMessage (Some t) Bot] /\
      t <> [] /\
      ((exists outs errs, spawn (JStr m) = Closed (Some 0%Z) outs errs /\
                          t = compose (List.concat outs)) \/
       t = u "Error: " ++ MSG_PROCESS_FAILED \/
       t = u "Error: " ++ MSG_GET_FAILED \/
       t = SORRY).
Proof.
  intros s spawn Hne Hh m.
  assert (Ht : truthy (JStr m) = true) by (unfold m; now destruct (trim (input_value s))).
  split.
  - intros logs r H. unfold handle_chat in H. rewrite Ht in H. simpl in H.
    destruct (spawn (JStr m)) as [|errno|[[|p|p]|] outs errs]; simpl in H;
      try discriminate H; injection H as _ <-; discriminate.
  - rewrite (send_message_flow s _ Hne Hh). fold m. simpl.
    unfold handle_chat. rewrite Ht. simpl.
    destruct (spawn (JStr m)) as [|errno|[[|p|p]|] outs errs] eqn:Es; simpl.
    + eexists. split; [reflexivity|]. split; [discriminate|]. tauto.
    + eexists. split; [reflexivity|]. split; [discriminate|]. tauto.
    + eexists. split; [reflexivity|]. split; [apply compose_not_nil|].
      left. now exists outs, errs.
    + eexists. split; [reflexivity|]. split; [discriminate|]. tauto.
    + eexists. split; [reflexivity|]. split; [discriminate|]. tauto.
    + eexists. split; [reflexivity|]. split; [discriminate|]. tauto.
Qed.

Lemma chat_roundtrip_bot_text_witness :
  exists t,
    history (send_message (empty_ui (u "why?"))
               (fun v => result (handle_chat v (fun _ => Closed (Some 0%Z) [scenario_1] [])))) =
    [NMessage (Some (u "why?")) User; NMessage (Some t) Bot] /\ t <> [].
Proof.
  destruct (proj2 (chat_roundtrip_bot_text (empty_ui (u "why?"))
                     (fun _ => Closed (Some 0%Z) [scenario_1] [])
                     ltac:(vm_compute; discriminate) ltac:(intros n []))) as (t & H1 & H2 & _).
  exists t. split; [exact H1 | exact H2].
Defined.
